(** * hbase-native-client/utils/user-util.cc: the cached current-user name

    [UserUtil::user_name] and [UserUtil::compute_user_name] are embedded as
    computations in a small monad that reads the operating system, threads
    the members of the [UserUtil] object and records, in order, every call
    the code makes to the outside (the mutex and the two libc functions). *)

From Stdlib Require Import String List Bool NArith Arith Lia.
From ExtLib Require Import Structures.Monad.
Import ListNotations.
Import MonadNotation.
Local Open Scope monad_scope.
Local Open Scope string_scope.

(** ** The operating system as the code sees it *)

(** [uid_t] is an unsigned integer; the code only passes it along. *)
Definition uid_t := N.

(** [struct passwd] of <pwd.h>.  [pw_name] is a [char*]: [None] is the null
    pointer, [Some n] points to the NUL-terminated characters [n]. *)
Record passwd := mk_passwd {
  pw_name : option string;
  pw_uid : uid_t
}.

(** What the process can ask the system at one moment: its real and its
    effective user id, and the answer of the user database for each id
    ([None] is the null pointer [getpwuid] returns on failure). *)
Record OS := mk_OS {
  real_uid : uid_t;
  effective_uid : uid_t;
  pwdb : uid_t -> option passwd
}.

(** Calls that leave the object, in the order the code makes them. *)
Inductive event :=
| EvLock
| EvUnlock
| EvGetuid
| EvGetpwuid (u : uid_t).

(** ** The object *)

(** The data members of [UserUtil] that the two functions read and write.
    The third member, the mutex [m_], holds no data: its use shows as
    [EvLock] and [EvUnlock]. *)
Record UserUtil := mk_UserUtil {
  init_ : bool;
  user_name_ : string
}.

(** Modelled from the spec: the constructor of [UserUtil] is declared in
    utils/user-util.h, which is not among the sources.  The spec's data
    model has the state start uninitialized with an empty cached name. *)
Definition initial : UserUtil :=
  {| init_ := false; user_name_ := "" |}.

Definition UserUtil_eqb (a b : UserUtil) : bool :=
  Bool.eqb (init_ a) (init_ b) && String.eqb (user_name_ a) (user_name_ b).

(** ** The monad of member functions *)

(** A member function runs against one [OS], updates the object and emits
    events. *)
Definition M (A : Type) : Type := OS -> UserUtil -> A * UserUtil * list event.

#[export] Instance Monad_M : Monad M := {
  ret := fun _ a => fun _ s => (a, s, []);
  bind := fun _ _ m f => fun os s =>
    let '(a, s1, t1) := m os s in
    let '(b, s2, t2) := f a os s1 in
    (b, s2, (t1 ++ t2)%list)
}.

Definition emit (e : event) : M unit := fun _ s => (tt, s, [e]).

Definition read_init : M bool := fun _ s => (init_ s, s, []).
Definition read_user_name : M string := fun _ s => (user_name_ s, s, []).
Definition write_init (b : bool) : M unit :=
  fun _ s => (tt, {| init_ := b; user_name_ := user_name_ s |}, []).
Definition write_user_name (n : string) : M unit :=
  fun _ s => (tt, {| init_ := init_ s; user_name_ := n |}, []).

(** <unistd.h> [getuid()]: the real user id of the calling process. *)
Definition getuid : M uid_t := fun os s => (real_uid os, s, [EvGetuid]).

(** <unistd.h> [geteuid()]: the effective user id.  The code never calls it. *)
Definition geteuid (os : OS) : uid_t := effective_uid os.

(** <pwd.h> [getpwuid(uid)]. *)
Definition getpwuid (u : uid_t) : M (option passwd) :=
  fun os s => (pwdb os u, s, [EvGetpwuid u]).

(** [lock_guard<mutex> lock(m)]: the mutex is taken where the guard is
    declared and released when its scope is left, by whichever path. *)
Definition lock_guard {A : Type} (scope : M A) : M A :=
  emit EvLock ;;
  r <- scope ;;
  emit EvUnlock ;;
  ret r.

(** ** The two functions *)

Definition compute_user_name : M unit :=
  lock_guard (
    init <- read_init ;;
    if init then ret tt
    else
      uid <- getuid ;;
      pw <- getpwuid uid ;;
      match pw with
      | Some p =>
          match pw_name p with
          | Some n => write_user_name n ;; write_init true
          | None => ret tt
          end
      | None => ret tt
      end).

Definition user_name : M string :=
  init <- read_init ;;
  (if negb init then compute_user_name else ret tt) ;;
  read_user_name.

(** Projections of one call. *)
Definition result {A} (o : A * UserUtil * list event) : A := fst (fst o).
Definition state_after {A} (o : A * UserUtil * list event) : UserUtil := snd (fst o).
Definition events {A} (o : A * UserUtil * list event) : list event := snd o.

(** ** What the lookup of [compute_user_name] yields *)

(** The login name that [getpwuid(getuid())] hands to the test
    [passwd && passwd->pw_name]: [None] when the record or its name is
    null. *)
Definition lookup_name (os : OS) : option string :=
  match pwdb os (real_uid os) with
  | Some p => pw_name p
  | None => None
  end.

(** The lookup returns no record, or a record without a name. *)
Definition lookup_fails (os : OS) : Prop :=
  pwdb os (real_uid os) = None \/
  exists p, pwdb os (real_uid os) = Some p /\ pw_name p = None.

(** The lookup returns a record that has a name. *)
Definition lookup_succeeds (os : OS) : Prop :=
  exists p n, pwdb os (real_uid os) = Some p /\ pw_name p = Some n.

(** The four calls that leave the object during an attempt, in order. *)
Definition attempt (os : OS) : list event :=
  [EvLock; EvGetuid; EvGetpwuid (real_uid os); EvUnlock].

(** ** Sequences of calls *)

(** The caller calls [user_name] again and again; the system may have
    changed between two calls, so each call gets the [OS] of its moment.
    The outcome of every call is kept. *)
Fixpoint run (oss : list OS) (s : UserUtil) : list (string * UserUtil * list event) :=
  match oss with
  | [] => []
  | os :: rest =>
      let o := user_name os s in
      o :: run rest (state_after o)
  end.

(** The object after the calls of [oss]. *)
Definition final_state (oss : list OS) (s : UserUtil) : UserUtil :=
  fold_left (fun s os => state_after (user_name os s)) oss s.

(** Number of user-database lookups among some events. *)
Fixpoint lookups (t : list event) : nat :=
  match t with
  | [] => 0
  | EvGetpwuid _ :: t' => S (lookups t')
  | _ :: t' => lookups t'
  end.

Definition total_lookups (oss : list OS) (s : UserUtil) : nat :=
  list_sum (map (fun o => lookups (events o)) (run oss s)).

(** Number of calls of a sequence that change the object. *)
Fixpoint mutations (oss : list OS) (s : UserUtil) : nat :=
  match oss with
  | [] => 0
  | os :: rest =>
      let s' := state_after (user_name os s) in
      (if UserUtil_eqb s s' then 0 else 1) + mutations rest s'
  end.

(** The states the object can be in: the constructed one, and whatever a
    call of either function makes of a state it can be in. *)
Inductive reachable : UserUtil -> Prop :=
| reach_initial : reachable initial
| reach_user_name (os : OS) (s : UserUtil) :
    reachable s -> reachable (state_after (user_name os s))
| reach_compute (os : OS) (s : UserUtil) :
    reachable s -> reachable (state_after (compute_user_name os s)).

(** ** Sample systems *)

Definition alice : passwd := {| pw_name := Some "alice"; pw_uid := 1000%N |}.
Definition root : passwd := {| pw_name := Some "root"; pw_uid := 0%N |}.

(** An ordinary login: both ids are 1000, the database knows alice. *)
Definition os_alice : OS :=
  {| real_uid := 1000%N; effective_uid := 1000%N;
     pwdb := fun u => if N.eqb u 1000 then Some alice else None |}.

(** A set-user-id program: started by alice, running as root. *)
Definition os_setuid : OS :=
  {| real_uid := 1000%N; effective_uid := 0%N;
     pwdb := fun u => if N.eqb u 0 then Some root
                      else if N.eqb u 1000 then Some alice else None |}.

(** The user database cannot be reached: every lookup returns null. *)
Definition os_down : OS :=
  {| real_uid := 1000%N; effective_uid := 1000%N; pwdb := fun _ => None |}.

(** The record comes back with a null [pw_name]. *)
Definition os_noname : OS :=
  {| real_uid := 1000%N; effective_uid := 1000%N;
     pwdb := fun _ => Some {| pw_name := None; pw_uid := 1000%N |} |}.

(** The record comes back with an empty [pw_name]. *)
Definition os_blank : OS :=
  {| real_uid := 1000%N; effective_uid := 1000%N;
     pwdb := fun _ => Some {| pw_name := Some ""; pw_uid := 1000%N |} |}.

(** ** Measures over the events and over a sequence of calls *)

(** The use of a non-recursive mutex by one thread, followed along some
    events: [held] tells whether the mutex is held before them.  Taking it
    while held, releasing it while free, and calling the system while it is
    free are refused ([None]); otherwise the answer tells whether the mutex
    is held after the events. *)
Fixpoint discipline (held : bool) (t : list event) : option bool :=
  match t with
  | [] => Some held
  | EvLock :: t' => if held then None else discipline true t'
  | EvUnlock :: t' => if held then discipline false t' else None
  | EvGetuid :: t' => if held then discipline true t' else None
  | EvGetpwuid _ :: t' => if held then discipline true t' else None
  end.

(** Events that start and end with the mutex free and respect the
    discipline in between. *)
Definition guarded (t : list event) : bool :=
  match discipline false t with
  | Some false => true
  | _ => false
  end.

(** Everything a sequence of calls does outside the object, in order. *)
Definition all_events (oss : list OS) (s : UserUtil) : list event :=
  concat (map events (run oss s)).

(** The name found by the first lookup of a sequence that succeeds. *)
Fixpoint first_name (oss : list OS) : option string :=
  match oss with
  | [] => None
  | os :: rest =>
      match lookup_name os with
      | Some n => Some n
      | None => first_name rest
      end
  end.

(** How many lookups fail before the first one that succeeds. *)
Fixpoint failed_prefix (oss : list OS) : nat :=
  match oss with
  | [] => 0
  | os :: rest =>
      match lookup_name os with
      | Some _ => 0
      | None => S (failed_prefix rest)
      end
  end.

(** * Properties *)

(** ** Concrete runs *)

Example user_name_fresh_alice :
  user_name os_alice initial
  = ("alice", mk_UserUtil true "alice",
     [EvLock; EvGetuid; EvGetpwuid 1000%N; EvUnlock]).
Proof. reflexivity. Qed.

Example user_name_cached_bob :
  user_name os_alice (mk_UserUtil true "bob") = ("bob", mk_UserUtil true "bob", []).
Proof. reflexivity. Qed.

Example compute_user_name_cached_bob :
  compute_user_name os_alice (mk_UserUtil true "bob")
  = (tt, mk_UserUtil true "bob", [EvLock; EvUnlock]).
Proof. reflexivity. Qed.

Example user_name_down :
  user_name os_down initial
  = ("", initial, [EvLock; EvGetuid; EvGetpwuid 1000%N; EvUnlock]).
Proof. reflexivity. Qed.

Example run_down_down_alice_down :
  map result (run [os_down; os_noname; os_alice; os_down] initial)
  = [""; ""; "alice"; "alice"]
  /\ total_lookups [os_down; os_noname; os_alice; os_down] initial = 3
  /\ mutations [os_down; os_noname; os_alice; os_down] initial = 1.
Proof. repeat split. Qed.

(** ** One call, case by case *)

Lemma lookup_fails_iff os : lookup_fails os <-> lookup_name os = None.
Proof.
  unfold lookup_fails, lookup_name. split.
  - intros [H | [p [H Hn]]]; rewrite H; [reflexivity | exact Hn].
  - destruct (pwdb os (real_uid os)) as [p |]; [| now left].
    intros H. right. now exists p.
Qed.

Lemma lookup_succeeds_iff os : lookup_succeeds os <-> exists n, lookup_name os = Some n.
Proof.
  unfold lookup_succeeds, lookup_name. split.
  - intros [p [n [H Hn]]]. exists n. now rewrite H.
  - intros [n H]. destruct (pwdb os (real_uid os)) as [p |]; [| discriminate].
    now exists p, n.
Qed.

Lemma lookup_fails_or_succeeds os : lookup_fails os \/ lookup_succeeds os.
Proof.
  rewrite lookup_fails_iff, lookup_succeeds_iff.
  destruct (lookup_name os) as [n |]; [right; now exists n | now left].
Qed.

Lemma compute_initialized os s :
  init_ s = true -> compute_user_name os s = (tt, s, [EvLock; EvUnlock]).
Proof.
  intros H. unfold compute_user_name, lock_guard, read_init, emit. cbn.
  rewrite H. reflexivity.
Qed.

Lemma compute_failed os s :
  init_ s = false -> lookup_name os = None ->
  compute_user_name os s = (tt, s, attempt os).
Proof.
  intros H Hl. unfold lookup_name in Hl.
  unfold compute_user_name, lock_guard, read_init, emit, getuid, getpwuid. cbn.
  rewrite H. cbn.
  destruct (pwdb os (real_uid os)) as [p |]; [| reflexivity].
  rewrite Hl. reflexivity.
Qed.

Lemma compute_resolved os s n :
  init_ s = false -> lookup_name os = Some n ->
  compute_user_name os s = (tt, {| init_ := true; user_name_ := n |}, attempt os).
Proof.
  intros H Hl. unfold lookup_name in Hl.
  unfold compute_user_name, lock_guard, read_init, emit, getuid, getpwuid. cbn.
  rewrite H. cbn.
  destruct (pwdb os (real_uid os)) as [p |]; [| discriminate].
  rewrite Hl. reflexivity.
Qed.

Lemma user_name_unfold os s :
  user_name os s =
  if init_ s then (user_name_ s, s, [])
  else let o := compute_user_name os s in
       (user_name_ (state_after o), state_after o, events o).
Proof.
  unfold user_name, read_init, read_user_name. cbn -[compute_user_name].
  destruct (init_ s); cbn -[compute_user_name]; [reflexivity |].
  destruct (compute_user_name os s) as [[u s'] t]. cbn.
  now rewrite app_nil_r.
Qed.

Lemma user_name_initialized os s :
  init_ s = true -> user_name os s = (user_name_ s, s, []).
Proof. intros H. rewrite user_name_unfold, H. reflexivity. Qed.

Lemma user_name_failed os s :
  init_ s = false -> lookup_name os = None ->
  user_name os s = (user_name_ s, s, attempt os).
Proof.
  intros H Hl. rewrite user_name_unfold, H, (compute_failed _ _ H Hl). reflexivity.
Qed.

Lemma user_name_resolved os s n :
  init_ s = false -> lookup_name os = Some n ->
  user_name os s = (n, {| init_ := true; user_name_ := n |}, attempt os).
Proof.
  intros H Hl. rewrite user_name_unfold, H, (compute_resolved _ _ _ H Hl). reflexivity.
Qed.

(** Whatever the case, [user_name] returns the name held after the call. *)
Lemma user_name_returns_cached os s :
  result (user_name os s) = user_name_ (state_after (user_name os s)).
Proof. rewrite user_name_unfold. destruct (init_ s); reflexivity. Qed.

Lemma UserUtil_eqb_eq a b : UserUtil_eqb a b = true <-> a = b.
Proof.
  destruct a as [i n], b as [j m]. unfold UserUtil_eqb. cbn.
  rewrite andb_true_iff, Bool.eqb_true_iff, String.eqb_eq.
  split; [intros [-> ->]; reflexivity | intros H; injection H; auto].
Qed.

(** ** Reachable states *)

(** An object that is not initialized still holds the empty name. *)
Lemma reachable_uninitialized_empty s :
  reachable s -> init_ s = false -> user_name_ s = "".
Proof.
  induction 1 as [| os s Hr IH | os s Hr IH]; [reflexivity | |]; intros Hi.
  - destruct (init_ s) eqn:E.
    + rewrite (user_name_initialized os s E) in Hi. cbn in Hi. congruence.
    + destruct (lookup_name os) as [n |] eqn:L.
      * rewrite (user_name_resolved os s n E L) in Hi. discriminate.
      * rewrite (user_name_failed os s E L). now apply IH.
  - destruct (init_ s) eqn:E.
    + rewrite (compute_initialized os s E) in Hi. cbn in Hi. congruence.
    + destruct (lookup_name os) as [n |] eqn:L.
      * rewrite (compute_resolved os s n E L) in Hi. discriminate.
      * rewrite (compute_failed os s E L). now apply IH.
Qed.

(** ** Sequences of calls *)

Lemma final_state_cons os oss s :
  final_state (os :: oss) s = final_state oss (state_after (user_name os s)).
Proof. reflexivity. Qed.

Lemma run_app a b s : run (a ++ b) s = (run a s ++ run b (final_state a s))%list.
Proof.
  revert s. induction a as [| os a IH]; intros s; [reflexivity |].
  cbn [app run]. rewrite final_state_cons. now rewrite IH.
Qed.

Lemma final_state_app a b s :
  final_state (a ++ b) s = final_state b (final_state a s).
Proof. apply fold_left_app. Qed.

Lemma mutations_app a b s :
  mutations (a ++ b) s = mutations a s + mutations b (final_state a s).
Proof.
  revert s. induction a as [| os a IH]; intros s; [reflexivity |].
  cbn [app mutations]. rewrite final_state_cons, IH. apply Nat.add_assoc.
Qed.

Lemma total_lookups_app a b s :
  total_lookups (a ++ b) s = total_lookups a s + total_lookups b (final_state a s).
Proof.
  unfold total_lookups. rewrite run_app, map_app, list_sum_app. reflexivity.
Qed.

Lemma length_run oss s : length (run oss s) = length oss.
Proof.
  revert s. induction oss as [| os oss IH]; intros s; [reflexivity |].
  cbn [run length]. now rewrite IH.
Qed.

(** Once initialized, every call answers from the cache and does nothing
    else. *)
Lemma run_initialized oss s :
  init_ s = true -> run oss s = map (fun _ => (user_name_ s, s, [])) oss.
Proof.
  intros H. induction oss as [| os oss IH]; [reflexivity |].
  cbn [run map]. rewrite (user_name_initialized os s H). cbn. now rewrite IH.
Qed.

Lemma final_state_initialized oss s : init_ s = true -> final_state oss s = s.
Proof.
  intros H. induction oss as [| os oss IH]; [reflexivity |].
  rewrite final_state_cons, (user_name_initialized os s H). exact IH.
Qed.

Lemma mutations_initialized oss s : init_ s = true -> mutations oss s = 0.
Proof.
  intros H. induction oss as [| os oss IH]; [reflexivity |].
  cbn [mutations]. rewrite (user_name_initialized os s H). cbn.
  rewrite (proj2 (UserUtil_eqb_eq s s) eq_refl). exact IH.
Qed.

Lemma total_lookups_initialized oss s : init_ s = true -> total_lookups oss s = 0.
Proof.
  intros H. unfold total_lookups. rewrite (run_initialized oss s H).
  induction oss as [| os oss IH]; [reflexivity | exact IH].
Qed.

(** While every lookup fails, every call is a fresh attempt that leaves the
    object as it was. *)
Lemma run_all_fail oss s :
  init_ s = false -> Forall lookup_fails oss ->
  run oss s = map (fun os => (user_name_ s, s, attempt os)) oss.
Proof.
  intros H. induction 1 as [| os oss Hf _ IH]; [reflexivity |].
  apply lookup_fails_iff in Hf.
  cbn [run map]. rewrite (user_name_failed os s H Hf). cbn. now rewrite IH.
Qed.

Lemma final_state_all_fail oss s :
  init_ s = false -> Forall lookup_fails oss -> final_state oss s = s.
Proof.
  intros H. induction 1 as [| os oss Hf _ IH]; [reflexivity |].
  apply lookup_fails_iff in Hf.
  rewrite final_state_cons, (user_name_failed os s H Hf). exact IH.
Qed.

Lemma mutations_all_fail oss s :
  init_ s = false -> Forall lookup_fails oss -> mutations oss s = 0.
Proof.
  intros H. induction 1 as [| os oss Hf _ IH]; [reflexivity |].
  apply lookup_fails_iff in Hf.
  cbn [mutations]. rewrite (user_name_failed os s H Hf). cbn.
  rewrite (proj2 (UserUtil_eqb_eq s s) eq_refl). exact IH.
Qed.

Lemma total_lookups_all_fail oss s :
  init_ s = false -> Forall lookup_fails oss -> total_lookups oss s = length oss.
Proof.
  intros H Hf. unfold total_lookups. rewrite (run_all_fail oss s H Hf).
  clear Hf. induction oss as [| os oss IH]; [reflexivity |].
  change (S (list_sum (map (fun o => lookups (events o))
            (map (fun os => (user_name_ s, s, attempt os)) oss))) = S (length oss)).
  f_equal. exact IH.
Qed.

Lemma mutations_le_1 oss s : mutations oss s <= 1.
Proof.
  revert s. induction oss as [| os oss IH]; intros s; [cbn; lia |].
  cbn [mutations]. destruct (init_ s) eqn:E.
  - rewrite (user_name_initialized os s E). cbn.
    rewrite (proj2 (UserUtil_eqb_eq s s) eq_refl). apply IH.
  - destruct (lookup_name os) as [n |] eqn:L.
    + rewrite (user_name_resolved os s n E L). cbn [state_after fst snd].
      rewrite mutations_initialized by reflexivity.
      destruct (UserUtil_eqb s _); lia.
    + rewrite (user_name_failed os s E L). cbn.
      rewrite (proj2 (UserUtil_eqb_eq s s) eq_refl). apply IH.
Qed.

(** * The claims *)

(** ** C1: which user id is looked up *)

(** C1, as stated, fails.  In a set-user-id program started by user 1000
    and running as user 0, the call that triggers resolution passes 1000
    to the user-database lookup, which is not the effective user id 0; the
    name returned is alice's, not root's. *)
Lemma C1_counterexample_setuid :
  init_ initial = false /\
  events (user_name os_setuid initial)
    = [EvLock; EvGetuid; EvGetpwuid 1000%N; EvUnlock] /\
  geteuid os_setuid = 0%N /\
  result (user_name os_setuid initial) = "alice" /\
  ~ (forall u, In (EvGetpwuid u) (events (user_name os_setuid initial)) ->
               u = geteuid os_setuid).
Proof.
  repeat split.
  intros H. specialize (H 1000%N). cbn in H.
  assert (E : 1000%N = 0%N) by (apply H; auto).
  discriminate E.
Qed.

(** C1, amended: every call that triggers resolution performs exactly one
    user-database lookup, the user id passed to it is the real user id of
    the process (what [getuid] returns), and when that record has a name
    the call returns this name. *)
Theorem C1_lookup_uses_real_uid (os : OS) (s : UserUtil) :
  init_ s = false ->
  In (EvGetpwuid (real_uid os)) (events (user_name os s)) /\
  (forall u, In (EvGetpwuid u) (events (user_name os s)) -> u = real_uid os) /\
  lookups (events (user_name os s)) = 1 /\
  (forall p n, pwdb os (real_uid os) = Some p -> pw_name p = Some n ->
               result (user_name os s) = n).
Proof.
  intros H.
  assert (E : events (user_name os s) = attempt os).
  { destruct (lookup_name os) as [n |] eqn:L.
    - now rewrite (user_name_resolved os s n H L).
    - now rewrite (user_name_failed os s H L). }
  rewrite E. repeat split.
  - cbn. auto.
  - cbn. intros u [F | [F | [F | [F | []]]]]; congruence.
  - intros p n Hp Hn.
    assert (L : lookup_name os = Some n) by (unfold lookup_name; now rewrite Hp).
    now rewrite (user_name_resolved os s n H L).
Qed.

Lemma C1_lookup_uses_real_uid_witness :
  init_ initial = false /\
  In (EvGetpwuid (real_uid os_setuid)) (events (user_name os_setuid initial)).
Proof.
  split; [reflexivity |].
  exact (proj1 (C1_lookup_uses_real_uid os_setuid initial eq_refl)).
Defined.

(** ** C2: the two paths of [user_name] *)

(** C2: when [init_] is true, [user_name] returns the cached name at once:
    the object is untouched and nothing outside it is called, neither the
    mutex nor the system.  Otherwise it runs the resolution step,
    [compute_user_name], under the lock: the mutex is taken, then [getuid]
    and [getpwuid] for the real user id are called while it is held, then
    it is released; the step stores the name the lookup found and sets
    [init_], or leaves the object as it was when the lookup found none; and
    [user_name] returns the name the object holds after the step, which is
    the name found, or the name held before, the empty string in every
    state the object can be in, when resolution failed. *)
Theorem C2_user_name_cached_or_resolved (os : OS) (s : UserUtil) :
  (init_ s = true -> user_name os s = (user_name_ s, s, [])) /\
  (init_ s = false ->
     let o := compute_user_name os s in
     user_name os s = (user_name_ (state_after o), state_after o, events o) /\
     events o = [EvLock; EvGetuid; EvGetpwuid (real_uid os); EvUnlock] /\
     guarded (events o) = true /\
     state_after o
     = match lookup_name os with
       | Some n => {| init_ := true; user_name_ := n |}
       | None => s
       end /\
     result (user_name os s)
     = match lookup_name os with
       | Some n => n
       | None => user_name_ s
       end /\
     (reachable s -> lookup_fails os -> result (user_name os s) = "")).
Proof.
  split; intros H.
  - now apply user_name_initialized.
  - cbv zeta. split; [now rewrite user_name_unfold, H |].
    destruct (lookup_name os) as [n |] eqn:L.
    + rewrite (compute_resolved os s n H L), (user_name_resolved os s n H L).
      do 4 (split; [reflexivity |]).
      intros _ Hf. apply lookup_fails_iff in Hf. congruence.
    + rewrite (compute_failed os s H L), (user_name_failed os s H L).
      do 4 (split; [reflexivity |]).
      intros Hr _. cbn. now apply reachable_uninitialized_empty.
Qed.

Lemma C2_user_name_cached_or_resolved_witness :
  (init_ (mk_UserUtil true "bob") = true /\
   user_name os_alice (mk_UserUtil true "bob") = ("bob", mk_UserUtil true "bob", [])) /\
  (init_ initial = false /\
   events (compute_user_name os_alice initial)
   = [EvLock; EvGetuid; EvGetpwuid (real_uid os_alice); EvUnlock] /\
   result (user_name os_alice initial)
   = match lookup_name os_alice with
     | Some n => n
     | None => user_name_ initial
     end) /\
  (reachable initial /\ lookup_fails os_down /\
   result (user_name os_down initial) = "").
Proof.
  assert (Hf : lookup_fails os_down) by (left; reflexivity).
  split; [| split].
  - split; [reflexivity |].
    exact (proj1 (C2_user_name_cached_or_resolved os_alice (mk_UserUtil true "bob")) eq_refl).
  - split; [reflexivity |].
    pose proof (proj2 (C2_user_name_cached_or_resolved os_alice initial) eq_refl) as W.
    cbv zeta in W. destruct W as [_ [We [_ [_ [Wr _]]]]].
    split; [exact We | exact Wr].
  - split; [constructor | split; [exact Hf |]].
    pose proof (proj2 (C2_user_name_cached_or_resolved os_down initial) eq_refl) as W.
    cbv zeta in W. destruct W as [_ [_ [_ [_ [_ Wf]]]]].
    exact (Wf reach_initial Hf).
Defined.

(** ** C3: a failed lookup *)

(** C3: in every state the object can be in with [init_] false, a lookup
    that returns no record, or a record without a name, leaves the object
    as it was: [init_] is still false, the cached name is still empty, and
    [user_name] returns the empty string; the call returns normally, there
    is no other outcome it could report. *)
Theorem C3_failed_lookup_keeps_state (os : OS) (s : UserUtil) :
  reachable s -> init_ s = false -> lookup_fails os ->
  state_after (user_name os s) = s /\
  init_ (state_after (user_name os s)) = false /\
  user_name_ (state_after (user_name os s)) = "" /\
  result (user_name os s) = "".
Proof.
  intros Hr Hi Hf. apply lookup_fails_iff in Hf.
  pose proof (reachable_uninitialized_empty s Hr Hi) as He.
  rewrite (user_name_failed os s Hi Hf). cbn. auto.
Qed.

Lemma C3_failed_lookup_keeps_state_witness :
  (reachable initial /\ init_ initial = false /\ lookup_fails os_noname) /\
  result (user_name os_noname initial) = "".
Proof.
  assert (Hf : lookup_fails os_noname).
  { right. eexists. split; reflexivity. }
  split; [repeat split; [constructor | exact Hf] |].
  exact (proj2 (proj2 (proj2
    (C3_failed_lookup_keeps_state os_noname initial reach_initial eq_refl Hf)))).
Defined.

(** ** C4: the cached name is written once *)

(** C4: once [init_] is true, no call of [user_name] and no call of
    [compute_user_name] changes the object, whatever the system answers and
    however many calls follow.  Over any sequence of calls the object is
    changed at most once; when the object starts uninitialized, the one
    change is made by the first call whose lookup succeeds: none of the
    failed calls before it changes anything, and nothing changes after
    it. *)
Theorem C4_written_once (s : UserUtil) :
  (init_ s = true ->
     (forall os, state_after (user_name os s) = s) /\
     (forall os, state_after (compute_user_name os s) = s) /\
     (forall oss, Forall (fun o => state_after o = s) (run oss s)) /\
     (forall oss, final_state oss s = s /\ mutations oss s = 0)) /\
  (forall oss, mutations oss s <= 1) /\
  (init_ s = false ->
     forall pre os post n,
       Forall lookup_fails pre -> lookup_name os = Some n ->
       mutations pre s = 0 /\
       mutations (pre ++ [os]) s = 1 /\
       mutations (pre ++ os :: post) s = 1 /\
       final_state (pre ++ [os]) s = {| init_ := true; user_name_ := n |} /\
       final_state (pre ++ os :: post) s = {| init_ := true; user_name_ := n |}).
Proof.
  split; [| split].
  - intros H. split; [| split; [| split]].
    + intros os. now rewrite (user_name_initialized os s H).
    + intros os. now rewrite (compute_initialized os s H).
    + intros oss. rewrite (run_initialized oss s H). apply Forall_forall.
      intros o Ho. apply in_map_iff in Ho. destruct Ho as [x [<- _]]. reflexivity.
    + intros oss. split.
      * now apply final_state_initialized.
      * now apply mutations_initialized.
  - intros oss. apply mutations_le_1.
  - intros H pre os post n Hpre Hos.
    assert (Hstep : forall l, mutations (os :: l) s = 1 /\
                      final_state (os :: l) s = {| init_ := true; user_name_ := n |}).
    { intros l. cbn [mutations]. rewrite final_state_cons.
      rewrite (user_name_resolved os s n H Hos). cbn [state_after fst snd].
      rewrite mutations_initialized, final_state_initialized by reflexivity.
      split; [| reflexivity].
      destruct (UserUtil_eqb s _) eqn:E; [| reflexivity].
      apply UserUtil_eqb_eq in E. rewrite E in H. discriminate. }
    rewrite !mutations_app, !final_state_app.
    rewrite (mutations_all_fail pre s H Hpre), (final_state_all_fail pre s H Hpre).
    destruct (Hstep []) as [M1 F1]. destruct (Hstep post) as [M2 F2].
    rewrite M1, M2, F1, F2. auto.
Qed.

Lemma C4_written_once_witness :
  (init_ (mk_UserUtil true "alice") = true /\
   state_after (user_name os_setuid (mk_UserUtil true "alice"))
   = mk_UserUtil true "alice") /\
  (init_ initial = false /\
   Forall lookup_fails [os_down] /\ lookup_name os_alice = Some "alice" /\
   mutations ([os_down] ++ os_alice :: [os_blank; os_down]) initial = 1).
Proof.
  assert (Hf : Forall lookup_fails [os_down]).
  { constructor; [left; reflexivity | constructor]. }
  split.
  - split; [reflexivity |].
    exact (proj1 (proj1 (C4_written_once (mk_UserUtil true "alice")) eq_refl) os_setuid).
  - split; [reflexivity |]. split; [exact Hf |]. split; [reflexivity |].
    exact (proj1 (proj2 (proj2
      (proj2 (proj2 (C4_written_once initial)) eq_refl
         [os_down] os_alice [os_blank; os_down] "alice" Hf eq_refl)))).
Defined.

(** ** C5: no lookup after a success *)

(** C5, as stated, fails.  On the constructed object, a first call made
    while the user database cannot be reached and a second call made once
    it answers: the second attempt succeeds, yet the lookup has been
    executed twice, not at most once. *)
Lemma C5_counterexample_failure_then_success :
  (exists os, In os [os_down; os_alice] /\ lookup_succeeds os) /\
  map result (run [os_down; os_alice] initial) = [""; "alice"] /\
  total_lookups [os_down; os_alice] initial = 2 /\
  ~ total_lookups [os_down; os_alice] initial <= 1.
Proof.
  split; [| split; [reflexivity | split; [reflexivity |]]].
  - exists os_alice. split; [cbn; auto |].
    exists alice, "alice". split; reflexivity.
  - change (total_lookups [os_down; os_alice] initial) with 2. lia.
Qed.

(** C5, amended: when the object starts uninitialized, some attempts fail
    and then one succeeds, none of the calls that follow on this object
    makes any call to the system (no lookup, no [getuid], not even the
    mutex), and each of them returns the name that was found.  Counting
    from the successful attempt on, the lookup therefore runs once; over
    the whole sequence it ran once per failed attempt and once for the
    successful one. *)
Theorem C5_no_lookup_after_success
    (s : UserUtil) (pre : list OS) (os : OS) (post : list OS) (n : string) :
  init_ s = false ->
  Forall lookup_fails pre ->
  lookup_name os = Some n ->
  Forall (fun o => events o = [] /\ result o = n)
         (run post (final_state (pre ++ [os]) s)) /\
  total_lookups post (final_state (pre ++ [os]) s) = 0 /\
  total_lookups (os :: post) (final_state pre s) = 1 /\
  total_lookups (pre ++ os :: post) s = length pre + 1.
Proof.
  intros H Hpre Hos.
  assert (F : final_state (pre ++ [os]) s = {| init_ := true; user_name_ := n |}).
  { rewrite final_state_app, (final_state_all_fail pre s H Hpre), final_state_cons.
    now rewrite (user_name_resolved os s n H Hos). }
  assert (T : total_lookups (os :: post) s = 1).
  { change (os :: post) with ([os] ++ post)%list.
    rewrite total_lookups_app.
    replace (final_state [os] s) with {| init_ := true; user_name_ := n |}
      by (cbn [final_state fold_left]; now rewrite (user_name_resolved os s n H Hos)).
    rewrite (total_lookups_initialized post) by reflexivity.
    unfold total_lookups. cbn [run map].
    now rewrite (user_name_resolved os s n H Hos). }
  rewrite F. repeat split.
  - rewrite run_initialized by reflexivity. apply Forall_forall.
    intros o Ho. apply in_map_iff in Ho. destruct Ho as [x [<- _]]. now split.
  - now apply total_lookups_initialized.
  - now rewrite (final_state_all_fail pre s H Hpre).
  - rewrite total_lookups_app, (total_lookups_all_fail pre s H Hpre).
    rewrite (final_state_all_fail pre s H Hpre), T. reflexivity.
Qed.

Lemma C5_no_lookup_after_success_witness :
  (init_ initial = false /\
   Forall lookup_fails [os_down; os_noname] /\
   lookup_name os_alice = Some "alice") /\
  total_lookups ([os_down; os_noname] ++ os_alice :: [os_down; os_setuid]) initial
  = length [os_down; os_noname] + 1.
Proof.
  assert (Hf : Forall lookup_fails [os_down; os_noname]).
  { constructor; [left; reflexivity |].
    constructor; [right; eexists; split; reflexivity | constructor]. }
  split; [split; [reflexivity | split; [exact Hf | reflexivity]] |].
  exact (proj2 (proj2 (proj2
    (C5_no_lookup_after_success initial [os_down; os_noname] os_alice
       [os_down; os_setuid] "alice" eq_refl Hf eq_refl)))).
Defined.

(** ** C6: a failure is not remembered *)

(** C6: a call of [user_name] on an uninitialized object performs the
    lookup, once.  If the lookup fails the object is still uninitialized,
    so after any number of failed calls the next call performs the lookup
    again, and when that lookup succeeds the call returns the name found:
    earlier failures have left no trace. *)
Theorem C6_uninitialized_retries (s : UserUtil) (pre : list OS) (os : OS) :
  init_ s = false ->
  Forall lookup_fails pre ->
  Forall (fun o => lookups (events o) = 1 /\ init_ (state_after o) = false)
         (run pre s) /\
  init_ (final_state pre s) = false /\
  lookups (events (user_name os (final_state pre s))) = 1 /\
  In (EvGetpwuid (real_uid os)) (events (user_name os (final_state pre s))) /\
  (forall n, lookup_name os = Some n ->
             result (user_name os (final_state pre s)) = n /\
             init_ (state_after (user_name os (final_state pre s))) = true).
Proof.
  intros H Hpre.
  rewrite (run_all_fail pre s H Hpre), (final_state_all_fail pre s H Hpre).
  split; [| split; [exact H | split; [| split]]].
  - apply Forall_forall. intros o Ho. apply in_map_iff in Ho.
    destruct Ho as [x [<- _]]. split; [reflexivity | exact H].
  - destruct (lookup_name os) as [n |] eqn:L.
    + now rewrite (user_name_resolved os s n H L).
    + now rewrite (user_name_failed os s H L).
  - destruct (lookup_name os) as [n |] eqn:L.
    + rewrite (user_name_resolved os s n H L). cbn. auto.
    + rewrite (user_name_failed os s H L). cbn. auto.
  - intros n L. rewrite (user_name_resolved os s n H L). split; reflexivity.
Qed.

Lemma C6_uninitialized_retries_witness :
  (init_ initial = false /\ Forall lookup_fails [os_down; os_down; os_noname]) /\
  lookups (events (user_name os_alice
                     (final_state [os_down; os_down; os_noname] initial))) = 1.
Proof.
  assert (Hf : Forall lookup_fails [os_down; os_down; os_noname]).
  { repeat (constructor; [left; reflexivity |]).
    constructor; [right; eexists; split; reflexivity | constructor]. }
  split; [split; [reflexivity | exact Hf] |].
  exact (proj1 (proj2 (proj2
    (C6_uninitialized_retries initial [os_down; os_down; os_noname] os_alice
       eq_refl Hf)))).
Defined.

(** ** C7: two calls in a row *)

(** C7, as stated, fails.  On the constructed object, a first call made
    while the user database cannot be reached returns the empty string; a
    second call, made once the database answers, returns alice. *)
Lemma C7_counterexample_late_success :
  result (user_name os_down initial) = "" /\
  result (user_name os_alice (state_after (user_name os_down initial))) = "alice" /\
  result (user_name os_alice (state_after (user_name os_down initial)))
    <> result (user_name os_down initial).
Proof. repeat split. discriminate. Qed.

(** C7, amended: two calls of [user_name] in sequence return the same
    string whenever the object is initialized after the first call, and
    whenever the lookup answers the second call as it answered the first.
    The two results differ in one case only: the object is uninitialized,
    the lookup of the first call fails, and the lookup of the second call
    succeeds with a name other than the one the object holds. *)
Theorem C7_two_calls (os1 os2 : OS) (s : UserUtil) :
  let o1 := user_name os1 s in
  let o2 := user_name os2 (state_after o1) in
  (init_ (state_after o1) = true -> result o2 = result o1) /\
  (lookup_name os2 = lookup_name os1 -> result o2 = result o1) /\
  (result o2 <> result o1 <->
     init_ s = false /\ lookup_fails os1 /\
     exists n, lookup_name os2 = Some n /\ n <> user_name_ s).
Proof.
  cbv zeta. rewrite lookup_fails_iff.
  destruct (init_ s) eqn:E.
  - rewrite (user_name_initialized os1 s E). cbn [state_after result fst snd].
    rewrite (user_name_initialized os2 s E). cbn [result fst].
    repeat split; try congruence.
    intros [F _]. discriminate F.
  - destruct (lookup_name os1) as [n1 |] eqn:L1.
    + rewrite (user_name_resolved os1 s n1 E L1). cbn [state_after result fst snd].
      rewrite user_name_initialized by reflexivity. cbn [result fst user_name_].
      repeat split; try congruence.
      intros [_ [F _]]. discriminate F.
    + rewrite (user_name_failed os1 s E L1). cbn [state_after result fst snd].
      destruct (lookup_name os2) as [n2 |] eqn:L2.
      * rewrite (user_name_resolved os2 s n2 E L2). cbn [result fst].
        repeat split; try congruence.
        -- exists n2. split; [reflexivity | assumption].
        -- intros [_ [_ [n [Hn Hne]]]]. congruence.
      * rewrite (user_name_failed os2 s E L2). cbn [result fst].
        repeat split; try congruence.
        intros [_ [_ [n [Hn _]]]]. discriminate Hn.
Qed.

Lemma C7_two_calls_witness :
  lookup_name os_down = lookup_name os_noname /\
  result (user_name os_down (state_after (user_name os_noname initial)))
  = result (user_name os_noname initial).
Proof.
  split; [reflexivity |].
  exact (proj1 (proj2 (C7_two_calls os_noname os_down initial)) eq_refl).
Defined.

(** ** C8: a lookup that never succeeds *)

(** C8: on the constructed object, as long as no lookup succeeds, every
    call of [user_name] returns (there is one outcome per call), returns
    the empty string, and leaves the object as constructed, however many
    calls are made. *)
Theorem C8_never_resolved_always_empty (oss : list OS) :
  Forall lookup_fails oss ->
  length (run oss initial) = length oss /\
  Forall (fun o => result o = "" /\ state_after o = initial) (run oss initial) /\
  final_state oss initial = initial.
Proof.
  intros Hf. split; [apply length_run | split].
  - rewrite (run_all_fail oss initial eq_refl Hf). apply Forall_forall.
    intros o Ho. apply in_map_iff in Ho. destruct Ho as [x [<- _]]. now split.
  - now apply final_state_all_fail.
Qed.

Lemma C8_never_resolved_always_empty_witness :
  Forall lookup_fails [os_down; os_noname; os_down] /\
  Forall (fun o => result o = "" /\ state_after o = initial)
         (run [os_down; os_noname; os_down] initial).
Proof.
  assert (Hf : Forall lookup_fails [os_down; os_noname; os_down]).
  { constructor; [left; reflexivity |].
    constructor; [right; eexists; split; reflexivity |].
    constructor; [left; reflexivity | constructor]. }
  split; [exact Hf |].
  exact (proj1 (proj2
    (C8_never_resolved_always_empty [os_down; os_noname; os_down] Hf))).
Defined.

(** ** C10: what counts as a success *)

(** C10: on an uninitialized object, resolution sets [init_] exactly when
    the lookup returns a record (not null) whose name is not null.  So a
    record whose name is the empty string counts: the empty string is
    cached, [init_] becomes true, and every later call returns the empty
    string without calling the system again. *)
Theorem C10_success_is_nonnull_name (os : OS) (s : UserUtil) :
  init_ s = false ->
  (init_ (state_after (compute_user_name os s)) = true <-> lookup_succeeds os) /\
  (init_ (state_after (user_name os s)) = true <-> lookup_succeeds os) /\
  (forall p, pwdb os (real_uid os) = Some p -> pw_name p = Some "" ->
     state_after (user_name os s) = {| init_ := true; user_name_ := "" |} /\
     result (user_name os s) = "" /\
     forall oss,
       Forall (fun o => result o = "" /\ events o = [])
              (run oss (state_after (user_name os s)))).
Proof.
  intros H. rewrite lookup_succeeds_iff.
  destruct (lookup_name os) as [n |] eqn:L.
  - rewrite (compute_resolved os s n H L), (user_name_resolved os s n H L).
    cbn [state_after result fst snd init_].
    split; [| split].
    + split; [intros _; now exists n | reflexivity].
    + split; [intros _; now exists n | reflexivity].
    + intros p Hp Hn.
      assert (n = "") as -> by (unfold lookup_name in L; rewrite Hp in L; congruence).
      split; [reflexivity | split; [reflexivity |]].
      intros oss. rewrite run_initialized by reflexivity.
      apply Forall_forall. intros o Ho. apply in_map_iff in Ho.
      destruct Ho as [x [<- _]]. now split.
  - rewrite (compute_failed os s H L), (user_name_failed os s H L).
    cbn [state_after result fst snd]. rewrite H.
    split; [| split].
    + split; [discriminate | intros [n Hn]; discriminate Hn].
    + split; [discriminate | intros [n Hn]; discriminate Hn].
    + intros p Hp Hn. unfold lookup_name in L. rewrite Hp in L. congruence.
Qed.

Lemma C10_success_is_nonnull_name_witness :
  init_ initial = false /\
  (init_ (state_after (user_name os_blank initial)) = true <-> lookup_succeeds os_blank).
Proof.
  split; [reflexivity |].
  exact (proj1 (proj2 (C10_success_is_nonnull_name os_blank initial eq_refl))).
Defined.

(** * Further properties of the two functions *)

(** ** Helper facts *)

Lemma discipline_app t1 t2 h h' :
  discipline h t1 = Some h' -> discipline h (t1 ++ t2) = discipline h' t2.
Proof.
  revert h. induction t1 as [| e t1 IH]; intros h H.
  - cbn in H. injection H as ->. reflexivity.
  - destruct e, h; cbn in H |- *; try discriminate; now apply IH.
Qed.

Lemma guarded_app t1 t2 :
  guarded t1 = true -> guarded t2 = true -> guarded (t1 ++ t2) = true.
Proof.
  unfold guarded. intros H1 H2.
  destruct (discipline false t1) as [[|] |] eqn:E; try discriminate.
  now rewrite (discipline_app t1 t2 false false E).
Qed.

Lemma events_compute os s :
  events (compute_user_name os s) = if init_ s then [EvLock; EvUnlock] else attempt os.
Proof.
  destruct (init_ s) eqn:E.
  - now rewrite (compute_initialized os s E).
  - destruct (lookup_name os) as [n |] eqn:L.
    + now rewrite (compute_resolved os s n E L).
    + now rewrite (compute_failed os s E L).
Qed.

Lemma events_user_name os s :
  events (user_name os s) = if init_ s then [] else attempt os.
Proof.
  rewrite user_name_unfold. destruct (init_ s) eqn:E; [reflexivity |].
  cbn [events snd]. fold (events (compute_user_name os s)).
  now rewrite events_compute, E.
Qed.

Lemma first_name_app a b :
  first_name (a ++ b) =
  match first_name a with Some n => Some n | None => first_name b end.
Proof.
  induction a as [| os a IH]; [reflexivity |].
  cbn. destruct (lookup_name os); [reflexivity | exact IH].
Qed.

Lemma final_state_first_name oss s :
  init_ s = false ->
  final_state oss s =
  match first_name oss with
  | Some n => {| init_ := true; user_name_ := n |}
  | None => s
  end.
Proof.
  intros H. induction oss as [| os oss IH]; [reflexivity |].
  rewrite final_state_cons. cbn [first_name].
  destruct (lookup_name os) as [n |] eqn:L.
  - rewrite (user_name_resolved os s n H L). cbn [state_after fst snd].
    now apply final_state_initialized.
  - rewrite (user_name_failed os s H L). exact IH.
Qed.

(** ** X1: the mutex *)

(** X1: whatever the state of the object and whatever the system answers,
    a call of [compute_user_name] and a call of [user_name] take the mutex
    only while it is free, release it only while it is held, call the
    system only while it is held, and return with the mutex free; the same
    holds for the events of any sequence of calls taken together.  A
    lookup inside a call of [compute_user_name] on an initialized object
    does not occur: that call only takes and releases the mutex. *)
Theorem X1_mutex_discipline (os : OS) (s : UserUtil) :
  guarded (events (compute_user_name os s)) = true /\
  guarded (events (user_name os s)) = true /\
  (forall oss, guarded (all_events oss s) = true) /\
  events (compute_user_name os s)
  = (if init_ s then [EvLock; EvUnlock] else attempt os).
Proof.
  assert (G : forall os s, guarded (events (user_name os s)) = true).
  { intros o x. rewrite events_user_name. destruct (init_ x); reflexivity. }
  split; [| split; [apply G | split; [| apply events_compute]]].
  - rewrite events_compute. destruct (init_ s); reflexivity.
  - intros oss. revert s. unfold all_events.
    induction oss as [| o oss IH]; intros s; [reflexivity |].
    cbn [run map concat]. apply guarded_app; [apply G | apply IH].
Qed.

Example guarded_refuses :
  guarded [EvGetuid; EvGetpwuid 7%N] = false /\
  guarded [EvLock; EvLock; EvUnlock] = false /\
  guarded [EvLock; EvGetuid] = false /\
  guarded [EvUnlock] = false.
Proof. repeat split. Qed.

(** ** X2, X3: what a call depends on *)

Lemma outcome_by_name os1 os2 s :
  lookup_name os1 = lookup_name os2 ->
  result (user_name os1 s) = result (user_name os2 s) /\
  state_after (user_name os1 s) = state_after (user_name os2 s) /\
  state_after (compute_user_name os1 s) = state_after (compute_user_name os2 s) /\
  (real_uid os1 = real_uid os2 ->
     user_name os1 s = user_name os2 s /\
     compute_user_name os1 s = compute_user_name os2 s).
Proof.
  intros HL. destruct (init_ s) eqn:E.
  - rewrite !(user_name_initialized _ s E), !(compute_initialized _ s E). auto.
  - destruct (lookup_name os2) as [n |] eqn:L2.
    + rewrite (user_name_resolved os1 s n E HL), (user_name_resolved os2 s n E L2).
      rewrite (compute_resolved os1 s n E HL), (compute_resolved os2 s n E L2).
      unfold attempt. do 3 (split; [reflexivity |]). intros ->. now split.
    + rewrite (user_name_failed os1 s E HL), (user_name_failed os2 s E L2).
      rewrite (compute_failed os1 s E HL), (compute_failed os2 s E L2).
      unfold attempt. do 3 (split; [reflexivity |]). intros ->. now split.
Qed.

(** X2: a call depends on the system only through the real user id and the
    name in that user's record.  When two systems give the same name (or
    both none) for their real user, [user_name] returns the same string and
    leaves the same object, and [compute_user_name] leaves the same object;
    when the real user ids agree as well, the two calls are equal in
    everything, events included.  The effective user id, the other fields
    of the record and the records of other users play no part. *)
Theorem X2_depends_on_real_user_name_only (os1 os2 : OS) (s : UserUtil) :
  lookup_name os1 = lookup_name os2 ->
  result (user_name os1 s) = result (user_name os2 s) /\
  state_after (user_name os1 s) = state_after (user_name os2 s) /\
  state_after (compute_user_name os1 s) = state_after (compute_user_name os2 s) /\
  (real_uid os1 = real_uid os2 ->
     user_name os1 s = user_name os2 s /\
     compute_user_name os1 s = compute_user_name os2 s).
Proof. apply outcome_by_name. Qed.

Lemma X2_depends_on_real_user_name_only_witness :
  lookup_name os_alice = lookup_name os_setuid /\
  user_name os_alice initial = user_name os_setuid initial.
Proof.
  split; [reflexivity |].
  exact (proj1 (proj2 (proj2 (proj2
    (X2_depends_on_real_user_name_only os_alice os_setuid initial eq_refl)))
    eq_refl)).
Defined.

(** X3: two sequences of calls, made against systems that give the same
    name (or both none) for their real user call by call, return the same
    strings in the same order and leave the same object. *)
Theorem X3_runs_agree (oss1 oss2 : list OS) (s : UserUtil) :
  Forall2 (fun a b => lookup_name a = lookup_name b) oss1 oss2 ->
  map result (run oss1 s) = map result (run oss2 s) /\
  final_state oss1 s = final_state oss2 s.
Proof.
  intros H. revert s. induction H as [| a b l1 l2 Hab _ IH]; intros s; [now split |].
  cbn [run map]. rewrite !final_state_cons.
  destruct (outcome_by_name a b s Hab) as [Hr [Hs _]].
  rewrite Hr, Hs. destruct (IH (state_after (user_name b s))) as [IH1 IH2].
  now rewrite IH1, IH2.
Qed.

Lemma X3_runs_agree_witness :
  Forall2 (fun a b => lookup_name a = lookup_name b)
          [os_down; os_alice] [os_noname; os_setuid] /\
  map result (run [os_down; os_alice] initial)
  = map result (run [os_noname; os_setuid] initial).
Proof.
  assert (H : Forall2 (fun a b => lookup_name a = lookup_name b)
                      [os_down; os_alice] [os_noname; os_setuid]).
  { repeat constructor. }
  split; [exact H |].
  exact (proj1 (X3_runs_agree [os_down; os_alice] [os_noname; os_setuid] initial H)).
Defined.

(** ** X4, X5: arbitrary sequences of calls *)

(** X4: the first success wins.  Starting from an uninitialized object,
    after any sequence of calls, successes and failures mixed in any order,
    the object holds the name found by the first lookup that succeeded and
    is initialized, or is exactly as it was when none succeeded; and the
    call made next returns the name of the first success up to and
    including itself, or the name the object held at the start. *)
Theorem X4_first_success_wins (s : UserUtil) (pre : list OS) (os : OS) :
  init_ s = false ->
  final_state pre s
  = match first_name pre with
    | Some n => {| init_ := true; user_name_ := n |}
    | None => s
    end /\
  result (user_name os (final_state pre s))
  = match first_name (pre ++ [os]) with
    | Some n => n
    | None => user_name_ s
    end.
Proof.
  intros H. split; [now apply final_state_first_name |].
  rewrite (final_state_first_name pre s H), first_name_app.
  destruct (first_name pre) as [n |].
  - now rewrite user_name_initialized.
  - cbn [first_name]. destruct (lookup_name os) as [n |] eqn:L.
    + now rewrite (user_name_resolved os s n H L).
    + now rewrite (user_name_failed os s H L).
Qed.

Lemma X4_first_success_wins_witness :
  init_ initial = false /\
  result (user_name os_setuid
            (final_state [os_down; os_blank; os_alice] initial))
  = match first_name ([os_down; os_blank; os_alice] ++ [os_setuid]) with
    | Some n => n
    | None => user_name_ initial
    end.
Proof.
  split; [reflexivity |].
  exact (proj2 (X4_first_success_wins initial [os_down; os_blank; os_alice]
                  os_setuid eq_refl)).
Defined.

(** X5: the number of user-database lookups made by any sequence of calls.
    From an uninitialized object it is the number of failures before the
    first success plus one, and the number of calls when no lookup
    succeeds; so it never exceeds the number of calls.  From an initialized
    object it is zero. *)
Theorem X5_lookup_count (oss : list OS) (s : UserUtil) :
  total_lookups oss s
  = (if init_ s then 0 else Nat.min (length oss) (S (failed_prefix oss))) /\
  total_lookups oss s <= length oss.
Proof.
  assert (E : total_lookups oss s
              = if init_ s then 0 else Nat.min (length oss) (S (failed_prefix oss))).
  { destruct (init_ s) eqn:H; [now apply total_lookups_initialized |].
    induction oss as [| os oss IH]; [reflexivity |].
    change (os :: oss) with ([os] ++ oss)%list at 1.
    rewrite total_lookups_app.
    assert (T1 : total_lookups [os] s = 1).
    { unfold total_lookups. cbn [run map list_sum].
      rewrite events_user_name, H. reflexivity. }
    rewrite T1. cbn [final_state fold_left failed_prefix length].
    destruct (lookup_name os) as [n |] eqn:L.
    - rewrite (user_name_resolved os s n H L). cbn [state_after fst snd].
      rewrite total_lookups_initialized by reflexivity. cbn. lia.
    - rewrite (user_name_failed os s H L). cbn [state_after fst snd].
      rewrite IH. lia. }
  split; [exact E |]. rewrite E. destruct (init_ s); lia.
Qed.

(** ** X6: the two functions together *)

(** X6: [user_name] changes the object exactly as [compute_user_name]
    does, in every state.  Against the same system, resolving twice leaves
    the object as resolving once does, and calling [compute_user_name]
    before [user_name] changes neither what [user_name] returns nor the
    object it leaves. *)
Theorem X6_compute_and_user_name (os : OS) (s : UserUtil) :
  state_after (user_name os s) = state_after (compute_user_name os s) /\
  state_after (compute_user_name os (state_after (compute_user_name os s)))
  = state_after (compute_user_name os s) /\
  result (user_name os (state_after (compute_user_name os s)))
  = result (user_name os s) /\
  state_after (user_name os (state_after (compute_user_name os s)))
  = state_after (user_name os s).
Proof.
  destruct (init_ s) eqn:E.
  - rewrite (compute_initialized os s E). cbn [state_after fst snd].
    rewrite (compute_initialized os s E), (user_name_initialized os s E). auto.
  - destruct (lookup_name os) as [n |] eqn:L.
    + rewrite (compute_resolved os s n E L), (user_name_resolved os s n E L).
      cbn [state_after result fst snd].
      rewrite compute_initialized, user_name_initialized by reflexivity. auto.
    + rewrite (compute_failed os s E L), (user_name_failed os s E L).
      cbn [state_after result fst snd].
      rewrite (compute_failed os s E L), (user_name_failed os s E L). auto.
Qed.

(** ** X7: where a returned name comes from *)

(** X7: in any sequence of calls from any state, every string returned is
    the name the object held at the start or a name that the lookup of one
    of the calls returned; and an object that ends initialized after
    starting uninitialized holds such a looked-up name. *)
Theorem X7_names_come_from_lookups (oss : list OS) (s : UserUtil) :
  Forall (fun o => result o = user_name_ s \/
                   exists os, In os oss /\ lookup_name os = Some (result o))
         (run oss s) /\
  (init_ s = false -> init_ (final_state oss s) = true ->
   exists os, In os oss /\ lookup_name os = Some (user_name_ (final_state oss s))).
Proof.
  assert (FN : forall l, forall n, first_name l = Some n ->
                 exists os, In os l /\ lookup_name os = Some n).
  { induction l as [| a l IH]; intros n Hn; [discriminate |].
    cbn in Hn. destruct (lookup_name a) as [m |] eqn:L.
    - exists a. split; [now left | congruence].
    - destruct (IH n Hn) as [os [Hin Hos]]. exists os. split; [now right | exact Hos]. }
  split.
  - revert s. induction oss as [| a oss IH]; intros s; [constructor |].
    cbn [run]. destruct (init_ s) eqn:E.
    + rewrite (user_name_initialized a s E). cbn [state_after fst snd].
      constructor; [now left |].
      rewrite (run_initialized oss s E). apply Forall_forall.
      intros o Ho. apply in_map_iff in Ho. destruct Ho as [x [<- _]]. now left.
    + destruct (lookup_name a) as [n |] eqn:L.
      * rewrite (user_name_resolved a s n E L). cbn [state_after fst snd].
        assert (R : exists os, In os (a :: oss) /\ lookup_name os = Some n)
          by (exists a; split; [now left | exact L]).
        constructor; [right; exact R |].
        rewrite run_initialized by reflexivity. apply Forall_forall.
        intros o Ho. apply in_map_iff in Ho. destruct Ho as [x [<- _]].
        right. exact R.
      * rewrite (user_name_failed a s E L). cbn [state_after fst snd].
        constructor; [now left |].
        eapply Forall_impl; [| apply IH].
        intros o [Ho | [os [Hin Hos]]]; [now left |].
        right. exists os. split; [now right | exact Hos].
  - intros E Hi. rewrite (final_state_first_name oss s E) in Hi |- *.
    destruct (first_name oss) as [n |] eqn:F; [| congruence].
    now apply FN.
Qed.

Lemma X7_names_come_from_lookups_witness :
  (init_ initial = false /\
   init_ (final_state [os_down; os_alice] initial) = true) /\
  exists os, In os [os_down; os_alice] /\
             lookup_name os
             = Some (user_name_ (final_state [os_down; os_alice] initial)).
Proof.
  split; [split; reflexivity |].
  exact (proj2 (X7_names_come_from_lookups [os_down; os_alice] initial)
           eq_refl eq_refl).
Defined.

(** ** X8: an empty result is ambiguous *)

(** X8: the caller cannot tell from an empty result whether the name was
    resolved.  On an uninitialized object the object can be in, a call
    whose lookup fails and a call whose lookup finds an empty name both
    return the empty string; yet after the first the next successful
    lookup is returned, and after the second the empty string is returned
    whatever the next lookup finds. *)
Theorem X8_empty_result_is_ambiguous
    (s : UserUtil) (os_fail os_empty os_next : OS) (n : string) :
  reachable s -> init_ s = false ->
  lookup_fails os_fail ->
  lookup_name os_empty = Some "" ->
  lookup_name os_next = Some n ->
  result (user_name os_fail s) = "" /\
  result (user_name os_empty s) = "" /\
  result (user_name os_next (state_after (user_name os_fail s))) = n /\
  result (user_name os_next (state_after (user_name os_empty s))) = "".
Proof.
  intros Hr H Hf He Hn. apply lookup_fails_iff in Hf.
  pose proof (reachable_uninitialized_empty s Hr H) as Hs.
  rewrite (user_name_failed os_fail s H Hf), (user_name_resolved os_empty s "" H He).
  cbn [state_after result fst snd].
  rewrite (user_name_resolved os_next s n H Hn).
  rewrite user_name_initialized by reflexivity. auto.
Qed.

Lemma X8_empty_result_is_ambiguous_witness :
  (reachable initial /\ init_ initial = false /\ lookup_fails os_down /\
   lookup_name os_blank = Some "" /\ lookup_name os_alice = Some "alice") /\
  result (user_name os_alice (state_after (user_name os_down initial))) = "alice" /\
  result (user_name os_alice (state_after (user_name os_blank initial))) = "".
Proof.
  assert (Hf : lookup_fails os_down) by (left; reflexivity).
  split; [repeat split; [constructor | exact Hf] |].
  exact (proj2 (proj2
    (X8_empty_result_is_ambiguous initial os_down os_blank os_alice "alice"
       reach_initial eq_refl Hf eq_refl eq_refl))).
Defined.
